(** * A shallow embedding of the datascape obesity dashboard ([src/app.py])

    The script reads a CSV table, derives an [AgeBand] column with
    [pd.cut], reads five sidebar widgets, filters the table with a pandas
    boolean mask and draws one [px.bar] chart.  Every step is a pure
    function here: the table is a list of rows, a pandas mask term is
    either a Python [bool] or a boolean [Series], and the figure is the
    list of traces [px.bar] builds.  Numeric columns ([Age], [FAF]) are
    exact rationals. *)

From Stdlib Require Import List String QArith Bool Lia Lqa.
Import ListNotations.

Open Scope string_scope.

(** ** Data model *)

(** One row of [ObesityDataSet_raw_and_data_sinthetic.csv], as
    [pd.read_csv] produces it (the columns the script uses). *)
Record RawRow := mkRawRow {
  raw_Gender : string;
  raw_Age : Q;
  raw_FAVC : string;
  raw_FAF : Q;
  raw_CALC : string;
  raw_family_history_with_overweight : string;
  raw_NObeyesdad : string
}.

(** A row of [df] after line 6 added the [AgeBand] column; [None] is the
    NaN that [pd.cut] leaves outside every bin. *)
Record Row := mkRow {
  Gender : string;
  Age : Q;
  FAVC : string;
  FAF : Q;
  CALC : string;
  family_history_with_overweight : string;
  NObeyesdad : string;
  AgeBand : option string
}.

Definition table := list Row.

(** ** [pd.cut] (right-closed bins, [include_lowest=False]) *)

Definition Qlt_b (x y : Q) : bool := negb (Qle_bool y x).

(** [pd.cut(x, bins, labels)]: the label of the first bin [(lo, hi]]
    containing [x], [NaN] ([None]) when there is none. *)
Fixpoint cut (bins : list Q) (labels : list string) (x : Q) : option string :=
  match bins, labels with
  | lo :: ((hi :: _) as rest), l :: ls =>
      if Qlt_b lo x && Qle_bool x hi then Some l else cut rest ls x
  | _, _ => None
  end.

Definition age_bins : list Q := [0; 20; 25; 30; 40; 100].
Definition age_labels : list string := ["<20"; "20-25"; "26-30"; "31-40"; "41+"].

Definition age_band (x : Q) : option string := cut age_bins age_labels x.

(** Lines 5-7: [df = pd.read_csv(...)]; [df["AgeBand"] = pd.cut(df["Age"], ...)]. *)
Definition add_AgeBand (r : RawRow) : Row :=
  {| Gender := raw_Gender r; Age := raw_Age r; FAVC := raw_FAVC r;
     FAF := raw_FAF r; CALC := raw_CALC r;
     family_history_with_overweight := raw_family_history_with_overweight r;
     NObeyesdad := raw_NObeyesdad r; AgeBand := age_band (raw_Age r) |}.

Definition load (csv : list RawRow) : table := map add_AgeBand csv.

(** ** Widgets (lines 10-14) *)

Record Widgets := mkWidgets {
  gender : list string;
  favc : list string;
  faf : Z;
  calc : list string;
  fh : list string
}.

Definition set_fh (w : Widgets) (v : list string) : Widgets :=
  {| gender := gender w; favc := favc w; faf := faf w; calc := calc w; fh := v |}.
Definition set_gender (w : Widgets) (v : list string) : Widgets :=
  {| gender := v; favc := favc w; faf := faf w; calc := calc w; fh := fh w |}.
Definition set_favc (w : Widgets) (v : list string) : Widgets :=
  {| gender := gender w; favc := v; faf := faf w; calc := calc w; fh := fh w |}.
Definition set_calc (w : Widgets) (v : list string) : Widgets :=
  {| gender := gender w; favc := favc w; faf := faf w; calc := v; fh := fh w |}.
Definition set_faf (w : Widgets) (v : Z) : Widgets :=
  {| gender := gender w; favc := favc w; faf := v; calc := calc w; fh := fh w |}.

(** ** Pandas boolean masks (lines 17-22) *)

(** An operand of [&] in the mask: the Python literal [True] or a
    boolean [Series] aligned with [df]. *)
Inductive MaskTerm :=
| Scalar (b : bool)
| Series (s : list bool).

Fixpoint zip_and (s t : list bool) : list bool :=
  match s, t with
  | a :: s', b :: t' => (a && b) :: zip_and s' t'
  | _, _ => []
  end.

(** [a & b]: [bool & bool] is a [bool]; a [bool] with a [Series]
    broadcasts ([Series.__rand__]); two aligned [Series] combine
    elementwise. *)
Definition mask_and (a b : MaskTerm) : MaskTerm :=
  match a, b with
  | Scalar x, Scalar y => Scalar (x && y)
  | Scalar x, Series t => Series (map (andb x) t)
  | Series s, Scalar y => Series (map (fun a => a && y) s)
  | Series s, Series t => Series (zip_and s t)
  end.

Definition mem (x : string) (sel : list string) : bool :=
  existsb (String.eqb x) sel.

(** [df[col].isin(sel) if sel else True]. *)
Definition isin_or_true (col : Row -> string) (sel : list string) (df : table) : MaskTerm :=
  match sel with
  | [] => Scalar true
  | _ :: _ => Series (map (fun r => mem (col r) sel) df)
  end.

(** [df["FAF"] >= faf]. *)
Definition faf_ge (df : table) (t : Z) : MaskTerm :=
  Series (map (fun r => Qle_bool (inject_Z t) (FAF r)) df).

Definition filter_mask (df : table) (w : Widgets) : MaskTerm :=
  mask_and
    (mask_and
       (mask_and (isin_or_true Gender (gender w) df)
                 (isin_or_true FAVC (favc w) df))
       (isin_or_true CALC (calc w) df))
    (faf_ge df (faf w)).

Fixpoint boolean_index (df : table) (s : list bool) : table :=
  match df, s with
  | r :: df', b :: s' => if b then r :: boolean_index df' s' else boolean_index df' s'
  | _, _ => []
  end.

(** [df[mask]]: a boolean [Series] selects rows; [df[True]] would look
    up a column named [True] and raise [KeyError] ([None]). *)
Definition getitem (df : table) (m : MaskTerm) : option table :=
  match m with
  | Series s => Some (boolean_index df s)
  | Scalar _ => None
  end.

Definition filtered (df : table) (w : Widgets) : option table :=
  getitem df (filter_mask df w).

(** ** [px.bar] (line 25)

    With [x] given and no [y], [px.bar] fills the missing bar dimension
    with the constant [1]: every row is one bar segment of height 1 at its
    [x] category.  Rows are split into one trace per [color] value, in
    order of first appearance ([groupby(sort=False)]), and segments at the
    same category are stacked ([barmode="relative"]).  The legend title
    is set while the traces are built, so a chart without traces has
    none. *)

Record Column := mkColumn { col_name : string; col_get : Row -> string }.

Record Trace := mkTrace { trace_name : string; trace_bars : list (string * Z) }.

Record Figure := mkFigure {
  fig_title : string;
  x_title : string;
  legend_title : option string;
  fig_traces : list Trace
}.

(** [Series.unique()]: distinct values in order of first appearance. *)
Fixpoint unique_aux (seen : list string) (l : list string) : list string :=
  match l with
  | [] => []
  | x :: l' => if mem x seen then unique_aux seen l' else x :: unique_aux (x :: seen) l'
  end.

Definition unique (l : list string) : list string := unique_aux [] l.

Definition px_bar (df : table) (x color : Column) (title : string) : Figure :=
  {| fig_title := title;
     x_title := col_name x;
     legend_title := match unique (map (col_get color) df) with
                     | [] => None
                     | _ :: _ => Some (col_name color)
                     end;
     fig_traces :=
       map (fun c =>
              {| trace_name := c;
                 trace_bars := map (fun r => (col_get x r, 1%Z))
                                   (filter (fun r => String.eqb (col_get color r) c) df) |})
           (unique (map (col_get color) df)) |}.

Definition sumZ (l : list Z) : Z := fold_right Z.add 0%Z l.

(** Height of the stacked segments of trace [t] at category [g]. *)
Definition segment_sum (g : string) (t : Trace) : Z :=
  sumZ (map snd (filter (fun p => String.eqb (fst p) g) (trace_bars t))).

(** Rendered height of the bar of series [c] at category [g]. *)
Definition bar_height (fig : Figure) (g c : string) : Z :=
  sumZ (map (segment_sum g) (filter (fun t => String.eqb (trace_name t) c) (fig_traces fig))).

(** Categories on the x axis, in order of first appearance. *)
Definition x_categories (fig : Figure) : list string :=
  unique (flat_map (fun t => map fst (trace_bars t)) (fig_traces fig)).

Definition series_names (fig : Figure) : list string := map trace_name (fig_traces fig).

Definition count_group (v : table) (g c : string) : Z :=
  Z.of_nat (List.length (filter (fun r => String.eqb (Gender r) g && String.eqb (NObeyesdad r) c) v)).

(** ** The whole script *)

Definition Gender_col : Column := {| col_name := "Gender"; col_get := Gender |}.
Definition NObeyesdad_col : Column := {| col_name := "NObeyesdad"; col_get := NObeyesdad |}.

(** The variables of the script after one run. *)
Record Env := mkEnv { env_df : table; env_filtered : table; env_fig1 : Figure }.

Definition fig1_of (v : table) : Figure := px_bar v Gender_col NObeyesdad_col "Obesity by Gender".

Definition app (csv : list RawRow) (w : Widgets) : option Env :=
  let df := load csv in
  match filtered df w with
  | Some v => Some {| env_df := df; env_filtered := v; env_fig1 := fig1_of v |}
  | None => None
  end.

(** ** Widget option lists and initial values (lines 10-14) *)

(** The options of the four multiselects: [df[col].unique()]. *)
Definition gender_options (df : table) : list string := unique (map Gender df).
Definition favc_options (df : table) : list string := unique (map FAVC df).
Definition calc_options (df : table) : list string := unique (map CALC df).
Definition fh_options (df : table) : list string :=
  unique (map family_history_with_overweight df).

(** [st.sidebar.slider("Physical Activity (FAF)", 0, 3)]: the bounds, and
    the value on the first run, which is [min_value]. *)
Definition faf_min : Z := 0.
Definition faf_max : Z := 3.

(** The widget values on the first run: every multiselect empty, the
    slider at its minimum. *)
Definition initial_widgets : Widgets := mkWidgets [] [] faf_min [] [].

(** Position of a band label among the ordered [pd.cut] labels. *)
Fixpoint label_index (l : string) (labels : list string) : nat :=
  match labels with
  | [] => 0
  | x :: labels' => if String.eqb x l then 0 else S (label_index l labels')
  end.

(** ** The example table of the end-to-end scenario *)

Definition ex_row1 : RawRow := mkRawRow "Male" 25 "no" 1 "Sometimes" "no" "Normal".
Definition ex_row2 : RawRow := mkRawRow "Female" 19 "yes" 0 "no" "yes" "Obesity".
Definition ex_row3 : RawRow := mkRawRow "Male" 42 "no" 3 "Frequently" "no" "Overweight".
Definition ex_csv : list RawRow := [ex_row1; ex_row2; ex_row3].
Definition ex_widgets : Widgets := mkWidgets ["Male"] [] 1 [] [].

Example ex_bands : map AgeBand (load ex_csv) = [Some "20-25"; Some "<20"; Some "41+"].
Proof. vm_compute. reflexivity. Qed.

Example ex_filtered : filtered (load ex_csv) ex_widgets = Some [add_AgeBand ex_row1; add_AgeBand ex_row3].
Proof. vm_compute. reflexivity. Qed.

(** ** The mask as the spec states it

    A second definition, written from the spec's formula
    [mask = (Gender ∈ selected OR none selected) AND ... AND FAF ≥ threshold],
    to be compared with [filter_mask]. *)

Definition is_empty (sel : list string) : bool :=
  match sel with [] => true | _ :: _ => false end.

Definition spec_mask (w : Widgets) (r : Row) : bool :=
  (mem (Gender r) (gender w) || is_empty (gender w)) &&
  (mem (FAVC r) (favc w) || is_empty (favc w)) &&
  (mem (CALC r) (calc w) || is_empty (calc w)) &&
  Qle_bool (inject_Z (faf w)) (FAF r).

(** The same mask with the Gender dimension left out entirely. *)
Definition spec_mask_no_gender (w : Widgets) (r : Row) : bool :=
  (mem (FAVC r) (favc w) || is_empty (favc w)) &&
  (mem (CALC r) (calc w) || is_empty (calc w)) &&
  Qle_bool (inject_Z (faf w)) (FAF r).

(** Order-preserving sub-sequence. *)
Inductive sublist {A : Type} : list A -> list A -> Prop :=
| sublist_nil : sublist [] []
| sublist_skip x l1 l2 : sublist l1 l2 -> sublist l1 (x :: l2)
| sublist_keep x l1 l2 : sublist l1 l2 -> sublist (x :: l1) (x :: l2).

(** ** The row predicate the pandas mask computes *)

Definition sel_pred (col : Row -> string) (sel : list string) (r : Row) : bool :=
  match sel with
  | [] => true
  | _ :: _ => mem (col r) sel
  end.

Definition row_mask (w : Widgets) (r : Row) : bool :=
  sel_pred Gender (gender w) r && sel_pred FAVC (favc w) r &&
  sel_pred CALC (calc w) r && Qle_bool (inject_Z (faf w)) (FAF r).

(** [m] is the mask of the row predicate [p] over [df]: either the
    literal [True] with [p] constantly true, or the [Series] of [p]. *)
Definition denotes (df : table) (m : MaskTerm) (p : Row -> bool) : Prop :=
  (m = Scalar true /\ forall r, p r = true) \/ m = Series (map p df).

(** ** Lemmas on the mask *)

Lemma zip_and_map (p q : Row -> bool) (df : table) :
  zip_and (map p df) (map q df) = map (fun r => p r && q r) df.
Proof. induction df as [|r df IH]; simpl; [reflexivity | now rewrite IH]. Qed.

Lemma denotes_and df a b p q :
  denotes df a p -> denotes df b q -> denotes df (mask_and a b) (fun r => p r && q r).
Proof.
  intros [[-> Hp] | ->] [[-> Hq] | ->]; simpl.
  - left. split; [reflexivity|]. intros r. now rewrite Hp, Hq.
  - right. f_equal. rewrite map_map. apply map_ext. intros r. now rewrite Hp.
  - right. f_equal. rewrite map_map. apply map_ext. intros r. now rewrite Hq.
  - right. f_equal. apply zip_and_map.
Qed.

Lemma isin_or_true_denotes col sel df :
  denotes df (isin_or_true col sel df) (sel_pred col sel).
Proof. destruct sel; [left; auto | right; reflexivity]. Qed.

Lemma mask_and_series a s b : mask_and a (Series s) <> Scalar b.
Proof. destruct a; discriminate. Qed.

Lemma filter_mask_series df w : filter_mask df w = Series (map (row_mask w) df).
Proof.
  assert (H : denotes df (filter_mask df w) (row_mask w)).
  { unfold filter_mask, row_mask.
    apply denotes_and; [repeat apply denotes_and; apply isin_or_true_denotes |].
    right. reflexivity. }
  destruct H as [[Heq _] | Heq]; [| exact Heq].
  exfalso. unfold filter_mask, faf_ge in Heq. revert Heq. apply mask_and_series.
Qed.

Lemma boolean_index_map (p : Row -> bool) (df : table) :
  boolean_index df (map p df) = filter p df.
Proof. induction df as [|r df IH]; simpl; [reflexivity|]. now destruct (p r); rewrite IH. Qed.

Lemma filtered_eq df w : filtered df w = Some (filter (row_mask w) df).
Proof. unfold filtered. rewrite filter_mask_series. simpl. now rewrite boolean_index_map. Qed.

Lemma app_eq csv w :
  app csv w = Some {| env_df := load csv;
                      env_filtered := filter (row_mask w) (load csv);
                      env_fig1 := fig1_of (filter (row_mask w) (load csv)) |}.
Proof. unfold app. now rewrite filtered_eq. Qed.

(** ** Lemmas on lists *)

Lemma mem_In x sel : mem x sel = true <-> In x sel.
Proof.
  unfold mem. rewrite existsb_exists. split.
  - intros [y [Hy Heq]]. apply String.eqb_eq in Heq. now subst.
  - intros H. exists x. split; [exact H | apply String.eqb_refl].
Qed.

Lemma is_empty_true sel : is_empty sel = true <-> sel = [].
Proof. destruct sel; simpl; split; congruence. Qed.

Lemma sel_pred_spec col sel r : sel_pred col sel r = mem (col r) sel || is_empty sel.
Proof. destruct sel; simpl; [reflexivity | now rewrite orb_false_r]. Qed.

Lemma row_mask_spec w r : row_mask w r = spec_mask w r.
Proof. unfold row_mask, spec_mask. now rewrite !sel_pred_spec. Qed.

Lemma filter_sublist {A} (f : A -> bool) (l : list A) : sublist (filter f l) l.
Proof.
  induction l as [|x l IH]; simpl; [constructor|].
  destruct (f x); constructor; exact IH.
Qed.

Lemma filter_sublist_mono {A} (f g : A -> bool) (l : list A) :
  (forall x, In x l -> f x = true -> g x = true) -> sublist (filter f l) (filter g l).
Proof.
  induction l as [|x l IH]; intros H; simpl; [constructor|].
  assert (IH' : sublist (filter f l) (filter g l)) by (apply IH; intros y Hy; apply H; now right).
  destruct (f x) eqn:Ef.
  - rewrite (H x (or_introl eq_refl) Ef). now constructor.
  - destruct (g x); [constructor|]; exact IH'.
Qed.

Lemma filter_idem {A} (f : A -> bool) (l : list A) : filter f (filter f l) = filter f l.
Proof.
  induction l as [|x l IH]; simpl; [reflexivity|].
  destruct (f x) eqn:E; simpl; [rewrite E; f_equal|]; exact IH.
Qed.

Lemma Qle_bool_false a b : Qle_bool a b = false -> b < a.
Proof.
  intros H. destruct (Qlt_le_dec b a) as [Hlt | Hle]; [exact Hlt|].
  apply Qle_bool_iff in Hle. congruence.
Qed.

Lemma unique_aux_In x seen l : In x (unique_aux seen l) <-> In x l /\ ~ In x seen.
Proof.
  revert seen. induction l as [|y l IH]; intros seen; simpl; [tauto|].
  destruct (mem y seen) eqn:Em.
  - apply mem_In in Em. rewrite IH. split; [tauto|].
    intros [[-> | H] Hn]; [contradiction | tauto].
  - assert (Hy : ~ In y seen) by (intros H; apply mem_In in H; congruence).
    simpl. rewrite IH. simpl.
    destruct (string_dec y x) as [-> | Hne]; [tauto|].
    split; [intros [H | H]; [contradiction | tauto] | intros [[H | H] Hn]; [contradiction | tauto]].
Qed.

Lemma unique_aux_NoDup seen l : NoDup (unique_aux seen l).
Proof.
  revert seen. induction l as [|y l IH]; intros seen; simpl; [constructor|].
  destruct (mem y seen); [apply IH|].
  constructor; [| apply IH].
  rewrite unique_aux_In. simpl. tauto.
Qed.

Lemma unique_In x l : In x (unique l) <-> In x l.
Proof. unfold unique. rewrite unique_aux_In. simpl. tauto. Qed.

Lemma unique_NoDup l : NoDup (unique l).
Proof. apply unique_aux_NoDup. Qed.

Lemma filter_map_name_NoDup (mk : string -> Trace) (u : list string) (c : string) :
  (forall c', trace_name (mk c') = c') -> NoDup u ->
  filter (fun t => String.eqb (trace_name t) c) (map mk u) = if in_dec string_dec c u then [mk c] else [].
Proof.
  intros Hname Hnd. induction Hnd as [|y u Hy Hnd IH]; simpl; [reflexivity|].
  rewrite Hname, IH.
  destruct (String.eqb_spec y c) as [-> | Hne].
  - destruct (in_dec string_dec c u); [contradiction|].
    destruct (string_dec c c); [reflexivity | congruence].
  - destruct (string_dec y c) as [Heq | Hne2]; [congruence|].
    destruct (in_dec string_dec c u); reflexivity.
Qed.

Lemma segment_sum_count (f : Row -> string) (g : string) (l : table) :
  sumZ (map snd (filter (fun p => String.eqb (fst p) g) (map (fun r => (f r, 1%Z)) l)))
  = Z.of_nat (List.length (filter (fun r => String.eqb (f r) g) l)).
Proof.
  induction l as [|r l IH]; [reflexivity|].
  cbn [map filter fst]. destruct (String.eqb (f r) g); [| exact IH].
  cbn [map List.length snd]. change (sumZ (?a :: ?m)) with (a + sumZ m)%Z.
  rewrite IH, Znat.Nat2Z.inj_succ. lia.
Qed.

Lemma filter_filter_and {A} (f g : A -> bool) (l : list A) :
  filter f (filter g l) = filter (fun x => g x && f x) l.
Proof.
  induction l as [|x l IH]; simpl; [reflexivity|].
  destruct (g x); simpl; [destruct (f x); simpl; rewrite ?IH|]; reflexivity || exact IH.
Qed.

Lemma filter_all_false {A} (f : A -> bool) (l : list A) :
  (forall x, In x l -> f x = false) -> filter f l = [].
Proof.
  induction l as [|x l IH]; intros H; simpl; [reflexivity|].
  rewrite (H x (or_introl eq_refl)). apply IH. intros y Hy. apply H. now right.
Qed.

(** Every stacked bar of [fig1_of v] counts its (Gender, NObeyesdad) group. *)
Lemma fig1_bar_height v g c : bar_height (fig1_of v) g c = count_group v g c.
Proof.
  unfold bar_height, fig1_of, px_bar, count_group. simpl.
  rewrite filter_map_name_NoDup by (reflexivity || apply unique_NoDup).
  destruct (in_dec string_dec c (unique (map NObeyesdad v))) as [Hin | Hout]; simpl.
  - unfold segment_sum. simpl. rewrite segment_sum_count, filter_filter_and.
    rewrite Z.add_0_r. do 2 f_equal. apply filter_ext. intros r. apply andb_comm.
  - rewrite filter_all_false; [reflexivity|].
    intros r Hr. destruct (String.eqb_spec (NObeyesdad r) c) as [<- | Hne];
      [| now rewrite andb_false_r].
    exfalso. apply Hout. apply unique_In. now apply in_map.
Qed.

Lemma Qlt_b_true a b : Qlt_b a b = true -> a < b.
Proof. unfold Qlt_b. intros H. apply Qle_bool_false. now destruct (Qle_bool b a). Qed.

Lemma Qlt_b_false a b : Qlt_b a b = false -> b <= a.
Proof. unfold Qlt_b. intros H. apply Qle_bool_iff. now destruct (Qle_bool b a). Qed.

(** Case analysis on every boolean comparison [pd.cut] performs. *)
Ltac cut_cases :=
  repeat match goal with
  | |- context [Qlt_b ?a ?b] =>
      let E := fresh "E" in
      destruct (Qlt_b a b) eqn:E; [apply Qlt_b_true in E | apply Qlt_b_false in E];
      cbn [andb]
  | |- context [Qle_bool ?a ?b] =>
      let E := fresh "E" in
      destruct (Qle_bool a b) eqn:E; [apply Qle_bool_iff in E | apply Qle_bool_false in E];
      cbn [andb]
  end.

(** ** Claims *)

(** C1: the filtered view is exactly the rows satisfying
    (Gender ∈ selected or none selected) ∧ (FAVC ∈ selected or none
    selected) ∧ (CALC ∈ selected or none selected) ∧ FAF ≥ threshold; with
    Gender = [] the view is the one obtained ignoring Gender entirely. *)
Theorem filtered_is_spec_mask : forall (df : table) (w : Widgets),
  filtered df w = Some (filter (spec_mask w) df) /\
  (exists v, filtered df w = Some v /\
     forall r, In r v <->
       In r df /\
       (In (Gender r) (gender w) \/ gender w = []) /\
       (In (FAVC r) (favc w) \/ favc w = []) /\
       (In (CALC r) (calc w) \/ calc w = []) /\
       inject_Z (faf w) <= FAF r) /\
  filtered df (set_gender w []) = Some (filter (spec_mask_no_gender w) df).
Proof.
  intros df w. split; [| split].
  - rewrite filtered_eq. f_equal. apply filter_ext. apply row_mask_spec.
  - exists (filter (row_mask w) df). split; [apply filtered_eq|].
    intros r. rewrite filter_In, row_mask_spec. unfold spec_mask.
    rewrite !andb_true_iff, !orb_true_iff, !mem_In, !is_empty_true, Qle_bool_iff.
    tauto.
  - rewrite filtered_eq. f_equal. apply filter_ext. intros r.
    rewrite row_mask_spec. reflexivity.
Qed.

(** C2: two runs that differ only in the family-history selection give
    the same filtered view (for any table) and the same whole run: the
    selection [fh] is read but never used by the mask. *)
Theorem family_history_ignored : forall (csv : list RawRow) (df : table) (w : Widgets) (sel : list string),
  filtered df (set_fh w sel) = filtered df w /\
  app csv (set_fh w sel) = app csv w.
Proof. intros. split; reflexivity. Qed.

(** C3: [AgeBand] is the fixed bucketing of [Age] into (0,20], (20,25],
    (25,30], (30,40], (40,100] (open on the left, closed on the right)
    labelled "<20", "20-25", "26-30", "31-40", "41+"; an age outside
    (0,100] gets no band; 19 and 20 map to "<20", 21 to "20-25", 41 to
    "41+"; and every loaded row carries the band of its own [Age]. *)
Theorem age_band_buckets : forall x : Q,
  ((0 < x /\ x <= 20) -> age_band x = Some "<20") /\
  ((20 < x /\ x <= 25) -> age_band x = Some "20-25") /\
  ((25 < x /\ x <= 30) -> age_band x = Some "26-30") /\
  ((30 < x /\ x <= 40) -> age_band x = Some "31-40") /\
  ((40 < x /\ x <= 100) -> age_band x = Some "41+") /\
  (age_band x = None <-> ~ (0 < x /\ x <= 100)) /\
  age_band 19 = Some "<20" /\ age_band 20 = Some "<20" /\
  age_band 21 = Some "20-25" /\ age_band 41 = Some "41+" /\
  (forall csv : list RawRow, Forall (fun r => AgeBand r = age_band (Age r)) (load csv)).
Proof.
  intros x. unfold age_band, age_bins, age_labels. simpl.
  repeat split; try (intros; cut_cases; first [reflexivity | exfalso; lra | lra]).
  - intros H. revert H. cut_cases; intros H; try discriminate; lra.
  - intros csv. unfold load. apply Forall_forall. intros r Hr.
    apply in_map_iff in Hr. destruct Hr as [raw [<- _]]. reflexivity.
Qed.

(** C4: the FAF threshold is inclusive: a row whose FAF equals the
    slider value and that passes the three selections is kept. *)
Theorem faf_threshold_inclusive : forall (df : table) (w : Widgets) (r : Row),
  In r df -> FAF r == inject_Z (faf w) ->
  (In (Gender r) (gender w) \/ gender w = []) ->
  (In (FAVC r) (favc w) \/ favc w = []) ->
  (In (CALC r) (calc w) \/ calc w = []) ->
  exists v, filtered df w = Some v /\ In r v.
Proof.
  intros df w r Hin Hfaf Hg Hfv Hc.
  exists (filter (row_mask w) df). split; [apply filtered_eq|].
  apply filter_In. split; [exact Hin|].
  rewrite row_mask_spec. unfold spec_mask.
  rewrite !andb_true_iff, !orb_true_iff, !mem_In, !is_empty_true, Qle_bool_iff.
  rewrite Hfaf. repeat split; try tauto. apply Qle_refl.
Qed.

Lemma faf_threshold_inclusive_witness :
  In (add_AgeBand ex_row1) (load ex_csv) /\
  exists v, filtered (load ex_csv) ex_widgets = Some v /\ In (add_AgeBand ex_row1) v.
Proof.
  split; [simpl; now left|].
  apply (faf_threshold_inclusive (load ex_csv) ex_widgets (add_AgeBand ex_row1)).
  - simpl. now left.
  - vm_compute. reflexivity.
  - left. simpl. now left.
  - right. reflexivity.
  - right. reflexivity.
Defined.

(** C5: on the three-row example with Gender = ["Male"], FAF = 1 and the
    other selections empty, the view is rows 1 and 3, and the chart has
    the single category "Male" with the two series "Normal" and
    "Overweight", each of height 1. *)
Theorem end_to_end_scenario :
  exists env, app ex_csv ex_widgets = Some env /\
    env_filtered env = [add_AgeBand ex_row1; add_AgeBand ex_row3] /\
    x_categories (env_fig1 env) = ["Male"] /\
    series_names (env_fig1 env) = ["Normal"; "Overweight"] /\
    bar_height (env_fig1 env) "Male" "Normal" = 1%Z /\
    bar_height (env_fig1 env) "Male" "Overweight" = 1%Z.
Proof.
  eexists. split; [reflexivity|].
  vm_compute. repeat split.
Qed.

(** C6: the chart of a view [v] has the title "Obesity by Gender",
    the legend title "NObeyesdad" when [v] has rows (and none when it is
    empty), Gender on the category axis (every bar segment sits at the Gender of a
    row of its series), one series per distinct NObeyesdad value, and the
    stacked height of series [c] at category [g] is the number of rows of
    [v] with Gender [g] and NObeyesdad [c]. *)
Theorem chart_counts_groups : forall v : table,
  fig_title (fig1_of v) = "Obesity by Gender" /\
  x_title (fig1_of v) = "Gender" /\
  (v <> [] -> legend_title (fig1_of v) = Some "NObeyesdad") /\
  (v = [] -> legend_title (fig1_of v) = None) /\
  NoDup (series_names (fig1_of v)) /\
  (forall c, In c (series_names (fig1_of v)) <-> In c (map NObeyesdad v)) /\
  (forall t p, In t (fig_traces (fig1_of v)) -> In p (trace_bars t) ->
     exists r, In r v /\ fst p = Gender r /\ NObeyesdad r = trace_name t) /\
  (forall g c, bar_height (fig1_of v) g c = count_group v g c).
Proof.
  intros v. split; [reflexivity|]. split; [reflexivity|].
  split; [intros Hne; destruct v as [|r v]; [contradiction | reflexivity]|].
  split; [intros ->; reflexivity|].
  split; [| split; [| split]].
  - unfold series_names, fig1_of, px_bar. simpl. rewrite map_map. simpl.
    rewrite map_id. apply unique_NoDup.
  - intros c. unfold series_names, fig1_of, px_bar. simpl. rewrite map_map. simpl.
    rewrite map_id. apply unique_In.
  - intros t p Ht Hp. unfold fig1_of, px_bar in Ht. simpl in Ht.
    apply in_map_iff in Ht. destruct Ht as [c [<- _]]. simpl in Hp.
    apply in_map_iff in Hp. destruct Hp as [r [<- Hr]].
    apply filter_In in Hr. destruct Hr as [Hr Hc].
    apply String.eqb_eq in Hc. exists r. simpl. auto.
  - apply fig1_bar_height.
Qed.

(** C7: a run never fails, and when the filtered view is empty the chart
    is the empty chart: no series, the fixed title, every bar of height 0. *)
Theorem empty_view_renders : forall (csv : list RawRow) (w : Widgets),
  exists env, app csv w = Some env /\
    (env_filtered env = [] ->
       fig_traces (env_fig1 env) = [] /\
       fig_title (env_fig1 env) = "Obesity by Gender" /\
       forall g c, bar_height (env_fig1 env) g c = 0%Z).
Proof.
  intros csv w. eexists. split; [apply app_eq|].
  simpl. intros ->. split; [reflexivity|]. split; [reflexivity|].
  intros g c. reflexivity.
Qed.

(** C8: filtering is idempotent and leaves the source table alone: the
    view filtered again with the same widgets is the same view, and after
    the run [df] is still the table loaded with its [AgeBand] column. *)
Theorem filter_idempotent_source_unchanged : forall (csv : list RawRow) (w : Widgets),
  exists v env,
    filtered (load csv) w = Some v /\
    filtered v w = Some v /\
    app csv w = Some env /\
    env_df env = load csv /\
    env_filtered env = v.
Proof.
  intros csv w. exists (filter (row_mask w) (load csv)). eexists.
  split; [apply filtered_eq|]. split; [rewrite filtered_eq, filter_idem; reflexivity|].
  split; [apply app_eq|]. split; reflexivity.
Qed.

Lemma sel_pred_mono col sel1 sel2 r :
  sel1 <> [] -> incl sel1 sel2 -> sel_pred col sel1 r = true -> sel_pred col sel2 r = true.
Proof.
  intros Hne Hincl H. destruct sel1 as [|s sel1]; [contradiction|].
  destruct sel2 as [|s2 sel2]; [exfalso; apply (Hincl s); now left|].
  apply mem_In. apply Hincl. now apply mem_In.
Qed.

(** C9: the view is a sub-sequence of the full table (same rows, same
    columns), the table keeps the [AgeBand] computed from [Age] at load,
    and every row of the view carries that same band. *)
Theorem filtered_subset_ageband : forall (csv : list RawRow) (df : table) (w : Widgets),
  (exists v, filtered df w = Some v /\ sublist v df) /\
  (exists env, app csv w = Some env /\
     env_df env = load csv /\
     sublist (env_filtered env) (env_df env) /\
     Forall (fun r => AgeBand r = age_band (Age r)) (env_df env) /\
     Forall (fun r => AgeBand r = age_band (Age r)) (env_filtered env)).
Proof.
  intros csv df w.
  assert (Hload : Forall (fun r => AgeBand r = age_band (Age r)) (load csv)).
  { unfold load. apply Forall_forall. intros r Hr.
    apply in_map_iff in Hr. destruct Hr as [raw [<- _]]. reflexivity. }
  split.
  - exists (filter (row_mask w) df). split; [apply filtered_eq | apply filter_sublist].
  - eexists. split; [apply app_eq|]. simpl.
    split; [reflexivity|]. split; [apply filter_sublist|]. split; [exact Hload|].
    apply Forall_forall. intros r Hr. apply filter_In in Hr.
    rewrite Forall_forall in Hload. apply Hload. apply Hr.
Qed.

(** C10: raising the FAF threshold never adds a row, and growing a
    non-empty Gender, FAVC or CALC selection never removes one. *)
Theorem filtered_monotone : forall (df : table) (w : Widgets),
  (forall t, (faf w <= t)%Z ->
     exists v1 v2, filtered df w = Some v1 /\ filtered df (set_faf w t) = Some v2 /\ sublist v2 v1) /\
  (forall sel, gender w <> [] -> incl (gender w) sel ->
     exists v1 v2, filtered df w = Some v1 /\ filtered df (set_gender w sel) = Some v2 /\ sublist v1 v2) /\
  (forall sel, favc w <> [] -> incl (favc w) sel ->
     exists v1 v2, filtered df w = Some v1 /\ filtered df (set_favc w sel) = Some v2 /\ sublist v1 v2) /\
  (forall sel, calc w <> [] -> incl (calc w) sel ->
     exists v1 v2, filtered df w = Some v1 /\ filtered df (set_calc w sel) = Some v2 /\ sublist v1 v2).
Proof.
  intros df w.
  split; [| split; [| split]]; intros x Hx; [| intros Hincl ..];
    do 2 eexists; (split; [apply filtered_eq | split; [apply filtered_eq |]]);
    apply filter_sublist_mono; intros r _; unfold row_mask; simpl;
    rewrite !andb_true_iff; intros [[[Hg Hf] Hc] Hq];
    repeat split; try assumption; try (eapply sel_pred_mono; eassumption).
  apply Qle_bool_iff. apply Qle_bool_iff in Hq.
  rewrite Zle_Qle in Hx. eapply Qle_trans; eassumption.
Qed.

(** ** Further properties of the script *)

Lemma sumZ_map_add {A} (f g : A -> Z) (u : list A) :
  sumZ (map (fun c => f c + g c)%Z u) = (sumZ (map f u) + sumZ (map g u))%Z.
Proof. induction u as [|c u IH]; simpl; [reflexivity|]. unfold sumZ in *. simpl. rewrite IH. lia. Qed.

Lemma sumZ_map_zero {A} (u : list A) : sumZ (map (fun _ => 0%Z) u) = 0%Z.
Proof. induction u as [|c u IH]; [reflexivity|]. unfold sumZ in *. simpl. now rewrite IH. Qed.

Lemma sum_indicator_out x u :
  ~ In x u -> sumZ (map (fun c => if String.eqb x c then 1%Z else 0%Z) u) = 0%Z.
Proof.
  induction u as [|c u IH]; intros Hn; [reflexivity|].
  unfold sumZ in *. simpl. destruct (String.eqb_spec x c) as [-> | Hne].
  - exfalso. apply Hn. now left.
  - rewrite IH; [reflexivity|]. intros H. apply Hn. now right.
Qed.

Lemma sum_indicator_in x u :
  NoDup u -> In x u -> sumZ (map (fun c => if String.eqb x c then 1%Z else 0%Z) u) = 1%Z.
Proof.
  intros Hnd. induction Hnd as [|c u Hc Hnd IH]; intros Hin; [destruct Hin|].
  unfold sumZ in *. simpl. destruct (String.eqb_spec x c) as [-> | Hne].
  - fold (sumZ (map (fun c' => if String.eqb c c' then 1%Z else 0%Z) u)).
    rewrite sum_indicator_out by exact Hc. reflexivity.
  - destruct Hin as [-> | Hin]; [congruence|]. now rewrite IH.
Qed.

Lemma count_cons (h : Row -> bool) r l :
  Z.of_nat (List.length (filter h (r :: l)))
  = ((if h r then 1 else 0) + Z.of_nat (List.length (filter h l)))%Z.
Proof. simpl. destruct (h r); simpl List.length; [rewrite Znat.Nat2Z.inj_succ|]; lia. Qed.

(** Splitting the rows counted by [p] along the distinct values [u] of a
    column [f] loses no row and counts none twice. *)
Lemma count_split (p : Row -> bool) (f : Row -> string) (u : list string) (l : table) :
  NoDup u -> (forall r, In r l -> In (f r) u) ->
  sumZ (map (fun c => Z.of_nat (List.length (filter (fun r => p r && String.eqb (f r) c) l))) u)
  = Z.of_nat (List.length (filter p l)).
Proof.
  intros Hnd. induction l as [|r l IH]; intros Hcov.
  - simpl. apply sumZ_map_zero.
  - rewrite count_cons.
    rewrite (map_ext _ (fun c => (if p r && String.eqb (f r) c then 1 else 0)
                                 + Z.of_nat (List.length (filter (fun r0 => p r0 && String.eqb (f r0) c) l)))%Z)
      by (intros c; apply count_cons).
    rewrite sumZ_map_add, IH by (intros r' Hr'; apply Hcov; now right).
    f_equal. destruct (p r); simpl.
    + apply sum_indicator_in; [exact Hnd | apply Hcov; now left].
    + apply sumZ_map_zero.
Qed.

Lemma options_cover (col : Row -> string) (df : table) r :
  In r df -> sel_pred col (unique (map col df)) r = true.
Proof.
  intros Hr. destruct (unique (map col df)) as [|s ss] eqn:E; [reflexivity|].
  change (mem (col r) (s :: ss) = true). rewrite <- E. apply mem_In. apply unique_In. now apply in_map.
Qed.

(** X1: each multiselect offers every value of its column exactly once,
    and nothing else. *)
Theorem widget_options_distinct : forall df : table,
  (NoDup (gender_options df) /\ forall x, In x (gender_options df) <-> In x (map Gender df)) /\
  (NoDup (favc_options df) /\ forall x, In x (favc_options df) <-> In x (map FAVC df)) /\
  (NoDup (calc_options df) /\ forall x, In x (calc_options df) <-> In x (map CALC df)) /\
  (NoDup (fh_options df) /\
     forall x, In x (fh_options df) <-> In x (map family_history_with_overweight df)).
Proof.
  intros df. repeat split; try apply unique_NoDup; intros H; apply unique_In; exact H.
Qed.

(** X2: selecting every option of the Gender, FAVC or CALC multiselect
    filters exactly as selecting none. *)
Theorem select_all_options_is_no_filter : forall (df : table) (w : Widgets),
  filtered df (set_gender w (gender_options df)) = filtered df (set_gender w []) /\
  filtered df (set_favc w (favc_options df)) = filtered df (set_favc w []) /\
  filtered df (set_calc w (calc_options df)) = filtered df (set_calc w []).
Proof.
  intros df w. rewrite !filtered_eq.
  repeat split; f_equal; apply filter_ext_in; intros r Hr; unfold row_mask, gender_options, favc_options, calc_options; cbn [gender favc calc faf set_gender set_favc set_calc];
    rewrite options_cover by exact Hr; reflexivity.
Qed.

(** X3: on the first run (nothing selected, slider at 0) the view is the
    whole table, as long as no row has a negative FAF. *)
Theorem initial_widgets_keep_all : forall df : table,
  Forall (fun r => 0 <= FAF r) df -> filtered df initial_widgets = Some df.
Proof.
  intros df Hall. rewrite filtered_eq. f_equal.
  rewrite Forall_forall in Hall.
  transitivity (filter (fun _ => true) df).
  - apply filter_ext_in. intros r Hr. unfold row_mask. simpl.
    apply Qle_bool_iff. apply Hall. exact Hr.
  - clear Hall. induction df as [|r df IH]; simpl; congruence.
Qed.

Lemma initial_widgets_keep_all_witness :
  Forall (fun r => 0 <= FAF r) (load ex_csv) /\ filtered (load ex_csv) initial_widgets = Some (load ex_csv).
Proof.
  assert (H : Forall (fun r => 0 <= FAF r) (load ex_csv)).
  { repeat constructor; simpl; unfold Qle; simpl; lia. }
  split; [exact H | apply (initial_widgets_keep_all (load ex_csv) H)].
Defined.

Lemma fig1_series_names v : series_names (fig1_of v) = unique (map NObeyesdad v).
Proof. unfold series_names, fig1_of, px_bar. simpl. rewrite map_map. simpl. apply map_id. Qed.

Lemma fig1_x_categories_In v g : In g (x_categories (fig1_of v)) <-> In g (map Gender v).
Proof.
  unfold x_categories. rewrite unique_In, in_flat_map. split.
  - intros [t [Ht Hg]]. unfold fig1_of, px_bar in Ht. simpl in Ht.
    apply in_map_iff in Ht. destruct Ht as [c [<- _]]. simpl in Hg.
    rewrite map_map in Hg. simpl in Hg. apply in_map_iff in Hg.
    destruct Hg as [r [<- Hr]]. apply filter_In in Hr. now apply in_map.
  - intros Hg. apply in_map_iff in Hg. destruct Hg as [r [<- Hr]].
    exists {| trace_name := NObeyesdad r;
              trace_bars := map (fun r0 => (Gender r0, 1%Z))
                                (filter (fun r0 => String.eqb (NObeyesdad r0) (NObeyesdad r)) v) |}.
    split.
    + unfold fig1_of, px_bar. simpl. apply in_map_iff. exists (NObeyesdad r).
      split; [reflexivity|]. apply unique_In. now apply in_map.
    + simpl. rewrite map_map. simpl. apply in_map. apply filter_In.
      split; [exact Hr | apply String.eqb_refl].
Qed.

Lemma fig1_category_total v g :
  sumZ (map (bar_height (fig1_of v) g) (series_names (fig1_of v)))
  = Z.of_nat (List.length (filter (fun r => String.eqb (Gender r) g) v)).
Proof.
  rewrite fig1_series_names.
  rewrite (map_ext _ (fun c => count_group v g c)) by (intros c; apply fig1_bar_height).
  unfold count_group. apply count_split; [apply unique_NoDup|].
  intros r Hr. apply unique_In. now apply in_map.
Qed.

(** X4: the categories of the x axis are the genders present in the
    view, each once. *)
Theorem chart_categories_are_genders : forall v : table,
  NoDup (x_categories (fig1_of v)) /\
  forall g, In g (x_categories (fig1_of v)) <-> In g (map Gender v).
Proof. intros v. split; [apply unique_NoDup | apply fig1_x_categories_In]. Qed.

(** X5: the stacked bar at category [g] (all series together) is as high
    as the number of rows of the view with Gender [g]. *)
Theorem chart_category_height : forall (v : table) (g : string),
  sumZ (map (bar_height (fig1_of v) g) (series_names (fig1_of v)))
  = Z.of_nat (List.length (filter (fun r => String.eqb (Gender r) g) v)).
Proof. intros v g. apply fig1_category_total. Qed.

(** X6: all bars of the chart together count every row of the view
    exactly once. *)
Theorem chart_total_is_row_count : forall v : table,
  sumZ (map (fun g => sumZ (map (bar_height (fig1_of v) g) (series_names (fig1_of v))))
            (x_categories (fig1_of v)))
  = Z.of_nat (List.length v).
Proof.
  intros v.
  rewrite (map_ext _ (fun g => Z.of_nat (List.length (filter (fun r => true && String.eqb (Gender r) g) v))))
    by (intros g; apply fig1_category_total).
  rewrite count_split.
  - f_equal. f_equal. clear. induction v as [|r v IH]; simpl; congruence.
  - apply unique_NoDup.
  - intros r Hr. apply fig1_x_categories_In. now apply in_map.
Qed.

(** X7: filtering the view of one widget state with another gives the
    same rows in either order. *)
Theorem filters_commute : forall (df : table) (w1 w2 : Widgets),
  exists v1 v2, filtered df w1 = Some v1 /\ filtered df w2 = Some v2 /\
    filtered v1 w2 = filtered v2 w1.
Proof.
  intros df w1 w2. do 2 eexists. split; [apply filtered_eq|]. split; [apply filtered_eq|].
  rewrite !filtered_eq, !filter_filter_and. f_equal. apply filter_ext. intros r. apply andb_comm.
Qed.

(** X8: a slider value above the FAF of every row gives the empty view. *)
Theorem faf_above_all_empty : forall (df : table) (w : Widgets),
  (forall r, In r df -> FAF r < inject_Z (faf w)) -> filtered df w = Some [].
Proof.
  intros df w H. rewrite filtered_eq. f_equal. apply filter_all_false.
  intros r Hr. unfold row_mask. destruct (Qle_bool (inject_Z (faf w)) (FAF r)) eqn:E;
    [| now rewrite andb_false_r].
  apply Qle_bool_iff in E. specialize (H r Hr). exfalso. lra.
Qed.

Lemma faf_above_all_empty_witness :
  filtered (load [ex_row1; ex_row2]) (mkWidgets [] [] 3 [] []) = Some [].
Proof.
  apply faf_above_all_empty. intros r Hr. simpl in Hr.
  destruct Hr as [<- | [<- | []]]; vm_compute; reflexivity.
Defined.

(** X9: a non-empty Gender selection that no row's Gender matches gives
    the empty view. *)
Theorem gender_selection_unmatched_empty : forall (df : table) (w : Widgets),
  gender w <> [] -> (forall r, In r df -> ~ In (Gender r) (gender w)) ->
  filtered df w = Some [].
Proof.
  intros df w Hne H. rewrite filtered_eq. f_equal. apply filter_all_false.
  intros r Hr. unfold row_mask. rewrite sel_pred_spec.
  destruct (mem (Gender r) (gender w)) eqn:E.
  - apply mem_In in E. exfalso. exact (H r Hr E).
  - destruct (gender w); [contradiction | reflexivity].
Qed.

Lemma gender_selection_unmatched_empty_witness :
  filtered (load [ex_row1; ex_row3]) (mkWidgets ["Female"] [] 0 [] []) = Some [].
Proof.
  apply gender_selection_unmatched_empty; [discriminate|].
  intros r Hr. simpl in Hr.
  destruct Hr as [<- | [<- | []]]; simpl; intros [H | []]; discriminate.
Defined.

(** X10: [AgeBand] is ordered like [Age]: an older respondent never gets
    an earlier band. *)
Theorem age_band_monotone : forall (x y : Q) (a b : string),
  x <= y -> age_band x = Some a -> age_band y = Some b ->
  (label_index a age_labels <= label_index b age_labels)%nat.
Proof.
  intros x y a b Hxy Ha Hb.
  unfold age_band, age_bins, age_labels in Ha, Hb. cbn [cut] in Ha, Hb. revert Ha Hb.
  cut_cases; intros Ha Hb; try discriminate;
    injection Ha as <-; injection Hb as <-;
    first [vm_compute; lia | exfalso; lra].
Qed.

Lemma age_band_monotone_witness :
  (label_index "<20" age_labels <= label_index "41+" age_labels)%nat.
Proof.
  apply (age_band_monotone 19 42); [unfold Qle; simpl; lia | reflexivity | reflexivity].
Defined.
